(** * The Kiali traffic-graph page: refresh coordination

    A shallow embedding of
    [plugins/kiali/src/pages/TrafficGraph/TrafficGraphPage.tsx].

    The page is a React function component.  Its observable behaviour is a
    transition system: a committed render runs the change-detection effect,
    which may start [fetchGraph]; the telemetry source later settles the
    request and the rest of [fetchGraph] runs; after every commit the
    model effect pushes a newly stored model into the topology controller.
    The external collaborators (telemetry client, alert sink, topology
    controller) are represented by the log of the calls made on them. *)

From Stdlib Require Import ZArith String List Lia.
From stdpp Require Import base decidable list strings gmap.
Import ListNotations.

Local Open Scope Z_scope.
Local Open Scope string_scope.
Local Open Scope list_scope.

(** ** Imported declarations

    The page imports the enumerations of [types/Graph], the helpers
    [decorateGraphData], [generateDataModel] and [getErrorString], and the
    wire types of the telemetry API.  None of them is defined in the page:
    they are taken as parameters. *)

(** The members of [GraphType], [EdgeLabelMode] and [TrafficRate] that the
    page names. *)
Class GraphEnums := {
  GraphType : Type;
  VERSIONED_APP : GraphType;
  EdgeLabelMode : Type;
  TRAFFIC_RATE : EdgeLabelMode;
  TRAFFIC_DISTRIBUTION : EdgeLabelMode;
  TrafficRate : Type;
  HTTP_REQUEST : TrafficRate;
  GRPC_TOTAL : TrafficRate;
  TCP_TOTAL : TrafficRate
}.

(** The object literal [graphQueryElements] built by [fetchGraph]. *)
Module Query.
Record GraphQueryElements `{GraphEnums} := {
  appenders : string;
  activeNamespaces : string;
  namespaces : string;
  graphType : GraphType;
  injectServiceNodes : bool;
  boxByNamespace : bool;
  boxByCluster : bool;
  showOutOfMesh : bool;
  showSecurity : bool;
  showVirtualServices : bool;
  edgeLabels : list EdgeLabelMode;
  trafficRates : list TrafficRate
}.
End Query.
Export Query.

(** A JavaScript call either returns a value or throws. *)
Inductive completion (E A : Type) : Type :=
| Returned (a : A)
| Threw (e : E).
Arguments Returned {E A} a.
Arguments Threw {E A} e.

(** The helpers and wire types the page imports.  [Thrown] is the type of
    the values a [catch] clause can receive. *)
Class GraphUtil `{GraphEnums} := {
  GraphElements : Type;
  DecoratedGraphData : Type;
  NodeModel : Type;
  EdgeModel : Type;
  Thrown : Type;
  decorateGraphData :
    GraphElements -> Z -> completion Thrown DecoratedGraphData;
  generateDataModel :
    DecoratedGraphData -> GraphQueryElements ->
    completion Thrown (list NodeModel * list EdgeModel);
  getErrorString : Thrown -> string
}.

(** Modelled from the spec: [nsEqual] of [helpers/namespaces], which the
    page imports and which is not among the sources.  The spec has the
    active namespaces compared as an unordered set, not by array order. *)
Definition nsEqual (ns1 ns2 : list string) : bool :=
  bool_decide (list_to_set ns1 =@{gset string} list_to_set ns2).

(** [Array.prototype.join] on an array of strings. *)
Definition join (sep : string) (a : list string) : string :=
  String.concat sep a.

(** [const graphConfig]. *)
Record GraphConfig := {
  id : string;
  type : string;
  layout : string
}.

Definition graphConfig : GraphConfig :=
  {| id := "g1"; type := "graph"; layout := "Dagre" |}.

(** The two factories the page registers. *)
Inductive Factory := KialiLayoutFactory | KialiComponentFactory.

Section Page.
Context `{GraphUtil}.

(** ** Data *)

(** A topology [Model] as the page builds it. *)
Record Model := {
  nodes : list NodeModel;
  edges : list EdgeModel;
  graph : GraphConfig
}.

(** The value [kialiClient.getGraphElements] resolves to; the page reads
    [data.elements] and [data.duration]. *)
Record GraphDefinition := {
  elements : GraphElements;
  data_duration : Z
}.

(** The topology controller, as far as the page drives it: the factories
    registered, the fit-to-screen-on-layout switch, and the calls of
    [fromModel] in order, each with its second argument (the flag the
    spec calls [animate]). *)
Record Visualization := {
  layoutFactories : list Factory;
  componentFactories : list Factory;
  fitToScreenOnLayout : bool;
  fromModelCalls : list (Model * bool)
}.

Definition newVisualization : Visualization :=
  {| layoutFactories := []; componentFactories := [];
     fitToScreenOnLayout := false; fromModelCalls := [] |}.

Definition registerLayoutFactory (f : Factory) (vis : Visualization) :=
  {| layoutFactories := layoutFactories vis ++ [f];
     componentFactories := componentFactories vis;
     fitToScreenOnLayout := fitToScreenOnLayout vis;
     fromModelCalls := fromModelCalls vis |}.

Definition registerComponentFactory (f : Factory) (vis : Visualization) :=
  {| layoutFactories := layoutFactories vis;
     componentFactories := componentFactories vis ++ [f];
     fitToScreenOnLayout := fitToScreenOnLayout vis;
     fromModelCalls := fromModelCalls vis |}.

Definition setFitToScreenOnLayout (b : bool) (vis : Visualization) :=
  {| layoutFactories := layoutFactories vis;
     componentFactories := componentFactories vis;
     fitToScreenOnLayout := b;
     fromModelCalls := fromModelCalls vis |}.

Definition fromModel (m : Model) (merge : bool) (vis : Visualization) :=
  {| layoutFactories := layoutFactories vis;
     componentFactories := componentFactories vis;
     fitToScreenOnLayout := fitToScreenOnLayout vis;
     fromModelCalls := fromModelCalls vis ++ [(m, merge)] |}.

Definition getVisualization : Visualization :=
  let vis := newVisualization in
  let vis := registerLayoutFactory KialiLayoutFactory vis in
  let vis := registerComponentFactory KialiComponentFactory vis in
  let vis := setFitToScreenOnLayout true vis in
  vis.

(** What one render of the component binds and its closures capture:
    [activeNamespaces] (the value of [getNamespaces]), the [duration]
    state, and whether [kialiState.alertUtils] is defined. *)
Record Scope := {
  activeNamespaces : list string;
  duration : Z;
  alertUtils : bool
}.

(** The component instance together with its collaborators.

    - [model], [prevActiveNs], [prevDuration], [controller]: the hooks
      of the same names.  [modelRef] is the identity of the object held
      in [model] (every [setModel] stores a fresh object literal) and
      [syncedRef] the identity the model effect last ran for.
    - [pending]: the calls of [fetchGraph] suspended at their [await],
      keyed by request number, each with the scope and the query its
      closure holds.
    - [requests]: the queries passed to [kialiClient.getGraphElements].
    - [alerts]: the messages passed to [alertUtils.add].
    - [fetchGraphCalls]: how often [fetchGraph] was entered.
    - [rejections]: what promises of [fetchGraph] were rejected with. *)
Record Page := {
  model : Model;
  modelRef : nat;
  prevActiveNs : list string;
  prevDuration : Z;
  controller : Visualization;
  syncedRef : option nat;
  pending : gmap nat (Scope * GraphQueryElements);
  requests : list GraphQueryElements;
  alerts : list string;
  fetchGraphCalls : nat;
  rejections : list Thrown
}.

(** ** State updates *)

Definition setModel (m : Model) (st : Page) : Page :=
  {| model := m; modelRef := S (modelRef st);
     prevActiveNs := prevActiveNs st; prevDuration := prevDuration st;
     controller := controller st; syncedRef := syncedRef st;
     pending := pending st; requests := requests st;
     alerts := alerts st; fetchGraphCalls := fetchGraphCalls st;
     rejections := rejections st |}.

Definition setPrev (d : Z) (ns : list string) (st : Page) : Page :=
  {| model := model st; modelRef := modelRef st;
     prevActiveNs := ns; prevDuration := d;
     controller := controller st; syncedRef := syncedRef st;
     pending := pending st; requests := requests st;
     alerts := alerts st; fetchGraphCalls := fetchGraphCalls st;
     rejections := rejections st |}.

Definition setController (vis : Visualization) (r : nat) (st : Page) : Page :=
  {| model := model st; modelRef := modelRef st;
     prevActiveNs := prevActiveNs st; prevDuration := prevDuration st;
     controller := vis; syncedRef := Some r;
     pending := pending st; requests := requests st;
     alerts := alerts st; fetchGraphCalls := fetchGraphCalls st;
     rejections := rejections st |}.

Definition setPending (p : gmap nat (Scope * GraphQueryElements))
    (st : Page) : Page :=
  {| model := model st; modelRef := modelRef st;
     prevActiveNs := prevActiveNs st; prevDuration := prevDuration st;
     controller := controller st; syncedRef := syncedRef st;
     pending := p; requests := requests st;
     alerts := alerts st; fetchGraphCalls := fetchGraphCalls st;
     rejections := rejections st |}.

Definition addRequest (q : GraphQueryElements) (st : Page) : Page :=
  {| model := model st; modelRef := modelRef st;
     prevActiveNs := prevActiveNs st; prevDuration := prevDuration st;
     controller := controller st; syncedRef := syncedRef st;
     pending := pending st; requests := requests st ++ [q];
     alerts := alerts st; fetchGraphCalls := fetchGraphCalls st;
     rejections := rejections st |}.

Definition alertUtils_add (msg : string) (st : Page) : Page :=
  {| model := model st; modelRef := modelRef st;
     prevActiveNs := prevActiveNs st; prevDuration := prevDuration st;
     controller := controller st; syncedRef := syncedRef st;
     pending := pending st; requests := requests st;
     alerts := alerts st ++ [msg]; fetchGraphCalls := fetchGraphCalls st;
     rejections := rejections st |}.

Definition enterFetchGraph (st : Page) : Page :=
  {| model := model st; modelRef := modelRef st;
     prevActiveNs := prevActiveNs st; prevDuration := prevDuration st;
     controller := controller st; syncedRef := syncedRef st;
     pending := pending st; requests := requests st;
     alerts := alerts st; fetchGraphCalls := S (fetchGraphCalls st);
     rejections := rejections st |}.

Definition addRejection (e : Thrown) (st : Page) : Page :=
  {| model := model st; modelRef := modelRef st;
     prevActiveNs := prevActiveNs st; prevDuration := prevDuration st;
     controller := controller st; syncedRef := syncedRef st;
     pending := pending st; requests := requests st;
     alerts := alerts st; fetchGraphCalls := fetchGraphCalls st;
     rejections := rejections st ++ [e] |}.

(** ** Statements that may throw

    A computation over the page that returns or throws; what it did to
    the page before throwing stays done. *)
Definition Js (A : Type) : Type := Page -> completion Thrown A * Page.

Definition ret {A} (a : A) : Js A := fun st => (Returned a, st).

Definition bind {A B} (c : Js A) (k : A -> Js B) : Js B :=
  fun st =>
    match c st with
    | (Returned a, st') => k a st'
    | (Threw e, st') => (Threw e, st')
    end.

Definition lift {A} (c : completion Thrown A) : Js A := fun st => (c, st).

Definition exec (f : Page -> Page) : Js unit :=
  fun st => (Returned tt, f st).

Definition tryCatch {A} (body : Js A) (handler : Thrown -> Js A) : Js A :=
  fun st =>
    match body st with
    | (Returned a, st') => (Returned a, st')
    | (Threw e, st') => handler e st'
    end.

Notation "x <- c ;; k" := (bind c (fun x => k))
  (at level 100, c at next level, right associativity).

(** ** [fetchGraph] *)

Definition graphQueryElements (activeNamespaces : list string)
  : GraphQueryElements :=
  {| appenders := "health,deadNode,istio,serviceEntry,meshCheck,workloadEntry";
     Query.activeNamespaces := join "," activeNamespaces;
     namespaces := join "," activeNamespaces;
     graphType := VERSIONED_APP;
     injectServiceNodes := true;
     boxByNamespace := true;
     boxByCluster := true;
     showOutOfMesh := false;
     showSecurity := false;
     showVirtualServices := false;
     edgeLabels := [TRAFFIC_RATE; TRAFFIC_DISTRIBUTION];
     trafficRates := [HTTP_REQUEST; GRPC_TOTAL; TCP_TOTAL] |}.

Definition emptyModel : Model :=
  {| nodes := []; edges := []; graph := graphConfig |}.

(** How far a call of the asynchronous [fetchGraph] got when it gave
    control back: its promise is settled, or it waits for request [n]. *)
Inductive Progress :=
| Settled (c : completion Thrown unit)
| Awaiting (n : nat).

(** [kialiClient.getGraphElements(q)] followed by [await]: the query is
    sent and the caller is parked under the next request number. *)
Definition getGraphElements (sc : Scope) (q : GraphQueryElements)
    (st : Page) : Progress * Page :=
  let n := length (requests st) in
  (Awaiting n, setPending (<[n := (sc, q)]> (pending st)) (addRequest q st)).

(** [fetchGraph] from its entry to its [return] or its [await]. *)
Definition fetchGraph (sc : Scope) (st : Page) : Progress * Page :=
  let st := enterFetchGraph st in
  if (length (activeNamespaces sc) =? 0)%nat then
    (Settled (Returned tt), setModel emptyModel st)
  else
    getGraphElements sc (graphQueryElements (activeNamespaces sc)) st.

(** [fetchGraph] from the settling of [getGraphElements] to its end:
    the rest of the [try] block and the [catch] clause. *)
Definition fetchGraph_resume (sc : Scope) (q : GraphQueryElements)
    (settled : completion Thrown GraphDefinition) : Js unit :=
  tryCatch
    (data <- lift settled ;;
     graphData <- lift (decorateGraphData (elements data) (data_duration data)) ;;
     g <- lift (generateDataModel graphData q) ;;
     exec (setModel {| nodes := fst g; edges := snd g; graph := graphConfig |}))
    (fun error =>
       if alertUtils sc then
         exec (alertUtils_add
                 ("Could not fetch services: " ++ getErrorString error))
       else ret tt).

(** ** Effects *)

(** The condition of the change-detection effect. *)
Definition changed (sc : Scope) (st : Page) : bool :=
  negb (duration sc =? prevDuration st)%Z
  || negb (nsEqual (activeNamespaces sc) (prevActiveNs st)).

(** The effect on [[activeNamespaces, duration]]. *)
Definition changeEffect (sc : Scope) (st : Page) : Page :=
  if changed sc st then
    let st := snd (fetchGraph sc st) in
    setPrev (duration sc) (activeNamespaces sc) st
  else st.

(** The effect on [[model, controller]]: it runs after a commit whose
    [model] is another object than at its last run. *)
Definition modelEffect (st : Page) : Page :=
  if bool_decide (syncedRef st = Some (modelRef st)) then st
  else setController (fromModel (model st) false (controller st))
                     (modelRef st) st.

(** ** The page as a transition system *)

(** What can happen to a mounted page:
    - [Render t sc]: at time [t] a render with the view state of [sc]
      is committed;
    - [Refresh sc]: the callback of [useAsyncFn] runs (from the
      [useDebounce] timer or from the masthead); [sc] is the scope its
      [fetchGraph] closed over;
    - [Settle n r]: the telemetry source settles request [n] with [r]. *)
Inductive Event :=
| Render (t : Z) (sc : Scope)
| Refresh (sc : Scope)
| Settle (n : nat) (r : completion Thrown GraphDefinition).

Definition settle (n : nat) (r : completion Thrown GraphDefinition)
    (st : Page) : Page :=
  match pending st !! n with
  | None => st
  | Some (sc, q) =>
      match fetchGraph_resume sc q r (setPending (delete n (pending st)) st) with
      | (Returned _, st') => st'
      | (Threw e, st') => addRejection e st'
      end
  end.

(** What the event itself does, and then the commit that follows it. *)
Definition handle (e : Event) (st : Page) : Page :=
  match e with
  | Render _ sc => changeEffect sc st
  | Refresh sc => snd (fetchGraph sc st)
  | Settle n r => settle n r st
  end.

Definition step (st : Page) (e : Event) : Page :=
  modelEffect (handle e st).

Definition run (st : Page) (es : list Event) : Page :=
  fold_left step es st.

(** The hooks at the first render. *)
Definition initialPage (sc : Scope) : Page :=
  {| model := emptyModel; modelRef := 0%nat;
     prevActiveNs := activeNamespaces sc; prevDuration := duration sc;
     controller := getVisualization; syncedRef := None;
     pending := ∅; requests := []; alerts := [];
     fetchGraphCalls := 0%nat; rejections := [] |}.

(** The page once the first render is committed and its effects ran. *)
Definition mount (sc : Scope) : Page :=
  modelEffect (changeEffect sc (initialPage sc)).

(** ** Vocabulary of the properties *)

(** A burst of renders, each with its time, in which every render
    changes the duration or the namespace set against the snapshot
    [(d, ns)] its predecessor left. *)
Fixpoint qualifying (d : Z) (ns : list string) (burst : list (Z * Scope))
  : bool :=
  match burst with
  | [] => true
  | (_, sc) :: rest =>
      (negb (duration sc =? d)%Z || negb (nsEqual (activeNamespaces sc) ns))
      && qualifying (duration sc) (activeNamespaces sc) rest
  end.

Definition renders (burst : list (Z * Scope)) : list Event :=
  map (fun e => Render (fst e) (snd e)) burst.

(** All times of the burst lie within [w] of its first. *)
Definition withinWindow (w : Z) (burst : list (Z * Scope)) : bool :=
  match burst with
  | [] => true
  | (t0, _) :: rest =>
      forallb (fun e => (t0 <=? fst e)%Z && (fst e <=? t0 + w)%Z) rest
  end.

(** The model a successful fetch stores for the generator's result. *)
Definition modelOf (g : list NodeModel * list EdgeModel) : Model :=
  {| nodes := fst g; edges := snd g; graph := graphConfig |}.

(** The message the [catch] clause builds. *)
Definition failureMessage (error : Thrown) : string :=
  "Could not fetch services: " ++ getErrorString error.

(** What holds of a page whenever it is at rest between events. *)
Record AtRest (st : Page) : Prop := {
  rest_synced : syncedRef st = Some (modelRef st);
  rest_graph : graph (model st) = graphConfig;
  rest_calls :
    Forall (fun c => graph (fst c) = graphConfig ∧ snd c = false)
           (fromModelCalls (controller st));
  rest_fit : fitToScreenOnLayout (controller st) = true;
  rest_layout : layoutFactories (controller st) = [KialiLayoutFactory];
  rest_component :
    componentFactories (controller st) = [KialiComponentFactory];
  rest_rejections : rejections st = []
}.

End Page.

(** ** A concrete instance

    Workloads are named by strings; decoration keeps the elements as they
    are and generation makes one node per element, named by the namespaces
    of the query and the element, and no edge. *)

Definition demoEnums : GraphEnums :=
  {| GraphType := string; VERSIONED_APP := "versionedApp";
     EdgeLabelMode := string;
     TRAFFIC_RATE := "trafficRate";
     TRAFFIC_DISTRIBUTION := "trafficDistribution";
     TrafficRate := string;
     HTTP_REQUEST := "httpRequest"; GRPC_TOTAL := "grpcTotal";
     TCP_TOTAL := "tcpTotal" |}.

Definition demoUtil : @GraphUtil demoEnums :=
  {| GraphElements := list string;
     DecoratedGraphData := list string;
     NodeModel := string;
     EdgeModel := string * string;
     Thrown := string;
     decorateGraphData := fun els _ => Returned els;
     generateDataModel := fun data q =>
       Returned (map (fun w => namespaces q ++ "/" ++ w)%string data, []);
     getErrorString := fun e => e |}.

Definition demoScope (ns : list string) (d : Z) : Scope :=
  {| activeNamespaces := ns; duration := d; alertUtils := true |}.

(** A scope whose [kialiState] has no [alertUtils]. *)
Definition quietScope (ns : list string) (d : Z) : Scope :=
  {| activeNamespaces := ns; duration := d; alertUtils := false |}.

Definition demoData (els : list string) : @GraphDefinition demoEnums demoUtil :=
  @Build_GraphDefinition demoEnums demoUtil els 60.

Definition networkError : @Thrown demoEnums demoUtil := "Network Error".

(** A page with one request in flight, sent by the refresh callback. *)
Definition onePending (sc : Scope) : @Page demoEnums demoUtil :=
  run (mount sc) [Refresh sc].

(** A page with two requests in flight: namespace [b] was selected at
    time 1 (request 0) and namespace [c] at time 2 (request 1). *)
Definition twoPending : @Page demoEnums demoUtil :=
  run (mount (demoScope ["a"] 60))
      [Render 1 (demoScope ["b"] 60); Render 2 (demoScope ["c"] 60)].

(** ** The rest of the page

    What the component does besides coordinating the fetch: it reads the
    active namespaces off the entity or the store, and it keeps the
    PatternFly dark-theme class of the [html] element in step with the
    Material UI theme. *)

(** The parts of [KialiAppState] the page reads.  [namespaces] may be
    missing; [alertUtils] records whether the alert utilities are there. *)
Module Store.
Record Namespace := { name : string }.
Record NamespaceState := { activeNamespaces : list Namespace }.
Record KialiAppState := {
  namespaces : option NamespaceState;
  alertUtils : bool
}.
End Store.

(** Reading a property of [undefined]. *)
Inductive TypeError := CannotReadProperty (property : string).

Section Namespaces.
(** The catalog entity and [getEntityNs] of [helpers/namespaces]. *)
Variable Entity : Type.
Variable getEntityNs : Entity -> list string.

(** [getNamespaces].  Without an entity and without a namespace state
    the second [return] reads [activeNamespaces] of [undefined]. *)
Definition getNamespaces (entity : option Entity)
    (kialiState : Store.KialiAppState)
  : completion TypeError (list string) :=
  match entity, Store.namespaces kialiState with
  | Some e, None => Returned (getEntityNs e)
  | _, Some state => Returned (map Store.name (Store.activeNamespaces state))
  | None, None => Threw (CannotReadProperty "activeNamespaces")
  end.

(** The bindings of one render: [duration] is the state of that name and
    [activeNamespaces] is [getNamespaces(props.entity, kialiState)]. *)
Definition renderScope (entity : option Entity)
    (kialiState : Store.KialiAppState) (duration : Z)
  : completion TypeError Scope :=
  match getNamespaces entity kialiState with
  | Returned ns =>
      Returned {| activeNamespaces := ns; duration := duration;
                  alertUtils := Store.alertUtils kialiState |}
  | Threw e => Threw e
  end.
End Namespaces.

(** [DOMTokenList]: the class list of an element is a list of tokens;
    [add] appends a token that is not there and [remove] takes it out. *)
Definition classList_add (token : string) (classList : list string)
  : list string :=
  if bool_decide (token ∈ classList) then classList
  else classList ++ [token].

Definition classList_remove (token : string) (classList : list string)
  : list string :=
  filter (fun c => c ≠ token) classList.

(** The theme block at the head of the component.  [htmlElement] is the
    class list of the first [html] element, if the document has one, and
    [paletteType] is [theme.palette.type]. *)
Definition applyThemeClass (paletteType : string)
    (htmlElement : option (list string)) : option (list string) :=
  match htmlElement with
  | Some classList =>
      if String.eqb paletteType "dark"
      then Some (classList_add "pf-v5-theme-dark" classList)
      else Some (classList_remove "pf-v5-theme-dark" classList)
  | None => None
  end.

Section Accounting.
Context `{GraphUtil}.

(** The request log and the calls in flight agree: every query sent
    names at least one namespace, a call in flight waits for the query
    logged under its number and that query is the one of its scope, and
    there are no more alerts and calls in flight than queries sent. *)
Record Accounted (st : Page) : Prop := {
  acc_requests :
    Forall (fun q => ∃ ns, ns ≠ [] ∧ q = graphQueryElements ns)
           (requests st);
  acc_pending :
    ∀ n sc q, pending st !! n = Some (sc, q) →
      requests st !! n = Some q
      ∧ q = graphQueryElements (activeNamespaces sc)
      ∧ activeNamespaces sc ≠ [];
  acc_alerts :
    (length (alerts st) + size (pending st) ≤ length (requests st))%nat;
  acc_messages :
    Forall (fun m => ∃ e, m = failureMessage e) (alerts st)
}.

(** The controller has been handed the stored model last, and as many
    models as were stored, the initial one counted. *)
Record Shown (st : Page) : Prop := {
  shown_synced : syncedRef st = Some (modelRef st);
  shown_last : last (fromModelCalls (controller st)) = Some (model st, false);
  shown_count : length (fromModelCalls (controller st)) = S (modelRef st)
}.

(** The view on display after an event: a render brings its own, a
    refresh or a settlement keeps the one there is. *)
Definition viewAfter (view : Scope) (e : Event) : Scope :=
  match e with
  | Render _ sc => sc
  | _ => view
  end.

(** The view on display after the events [es] on a page mounted with the
    view [sc0]: the one of the last render. *)
Definition lastView (sc0 : Scope) (es : list Event) : Scope :=
  fold_left viewAfter es sc0.

(** The snapshot stands for the view on display: the same duration and
    the same namespaces as a set. *)
Record Tracks (view : Scope) (st : Page) : Prop := {
  tracks_duration : prevDuration st = duration view;
  tracks_namespaces :
    ∀ x, x ∈ prevActiveNs st ↔ x ∈ activeNamespaces view
}.

End Accounting.

(** A store with a namespace state. *)
Definition demoStore (ns : list string) : Store.KialiAppState :=
  {| Store.namespaces :=
       Some {| Store.activeNamespaces := map Store.Build_Namespace ns |};
     Store.alertUtils := true |}.

(** An instance whose decorator rejects an element without a name. *)
Definition strictUtil : @GraphUtil demoEnums :=
  {| GraphElements := list string;
     DecoratedGraphData := list string;
     NodeModel := string;
     EdgeModel := string * string;
     Thrown := string;
     decorateGraphData := fun els _ =>
       if bool_decide ("" ∈ els) then Threw "element without a name"
       else Returned els;
     generateDataModel := fun data q =>
       Returned (map (fun w => namespaces q ++ "/" ++ w)%string data, []);
     getErrorString := fun e => e |}.

(** * Properties *)

(** [nsEqual] decides equality of the two arrays as sets. *)
Lemma nsEqual_true (ns1 ns2 : list string) :
  nsEqual ns1 ns2 = true ↔ ∀ x, x ∈ ns1 ↔ x ∈ ns2.
Proof.
  unfold nsEqual. rewrite bool_decide_eq_true. split.
  - intros Heq x. rewrite <- !(elem_of_list_to_set (C := gset string)).
    by rewrite Heq.
  - intros Hx. apply set_eq. intros x.
    rewrite !elem_of_list_to_set. apply Hx.
Qed.

Lemma nsEqual_false (ns1 ns2 : list string) :
  nsEqual ns1 ns2 = false ↔ ¬ ∀ x, x ∈ ns1 ↔ x ∈ ns2.
Proof.
  rewrite <- nsEqual_true. destruct (nsEqual ns1 ns2); naive_solver.
Qed.

Lemma nsEqual_Permutation (ns1 ns2 : list string) :
  ns1 ≡ₚ ns2 → nsEqual ns1 ns2 = true.
Proof.
  intros Hp. apply nsEqual_true. intros x. by rewrite Hp.
Qed.

Section Facts.
Context `{GraphUtil}.

Implicit Types (st : Page) (sc : Scope) (q : GraphQueryElements).

(** *** What the model effect leaves alone *)

Lemma modelEffect_hooks st :
  model (modelEffect st) = model st
  ∧ modelRef (modelEffect st) = modelRef st
  ∧ prevActiveNs (modelEffect st) = prevActiveNs st
  ∧ prevDuration (modelEffect st) = prevDuration st.
Proof. unfold modelEffect. by case_bool_decide. Qed.

Lemma modelEffect_world st :
  pending (modelEffect st) = pending st
  ∧ requests (modelEffect st) = requests st
  ∧ alerts (modelEffect st) = alerts st
  ∧ fetchGraphCalls (modelEffect st) = fetchGraphCalls st
  ∧ rejections (modelEffect st) = rejections st.
Proof. unfold modelEffect. by case_bool_decide. Qed.

Lemma length_zero_nil {A} (l : list A) :
  (length l =? 0)%nat = true ↔ l = [].
Proof. rewrite Nat.eqb_eq. by destruct l. Qed.

(** *** The condition of the change-detection effect *)

Lemma changed_true sc st :
  changed sc st = true ↔
  duration sc ≠ prevDuration st
  ∨ (¬ ∀ x, x ∈ activeNamespaces sc ↔ x ∈ prevActiveNs st).
Proof.
  unfold changed. rewrite orb_true_iff, !negb_true_iff.
  by rewrite Z.eqb_neq, nsEqual_false.
Qed.

Lemma changed_false sc st :
  changed sc st = false ↔
  duration sc = prevDuration st
  ∧ (∀ x, x ∈ activeNamespaces sc ↔ x ∈ prevActiveNs st).
Proof.
  unfold changed. rewrite orb_false_iff, !negb_false_iff.
  by rewrite Z.eqb_eq, nsEqual_true.
Qed.

Lemma fetchGraph_calls sc st :
  fetchGraphCalls (snd (fetchGraph sc st)) = S (fetchGraphCalls st).
Proof. unfold fetchGraph, getGraphElements. by case_match. Qed.

Lemma fetchGraph_requests sc st :
  requests (snd (fetchGraph sc st)) =
  requests st ++
    (if (length (activeNamespaces sc) =? 0)%nat then []
     else [graphQueryElements (activeNamespaces sc)]).
Proof.
  unfold fetchGraph, getGraphElements.
  case_match; simpl; by rewrite ?app_nil_r.
Qed.

Lemma changeEffect_calls sc st :
  fetchGraphCalls (changeEffect sc st) =
  if changed sc st then S (fetchGraphCalls st) else fetchGraphCalls st.
Proof.
  unfold changeEffect. case_match; [|done]. simpl. apply fetchGraph_calls.
Qed.

Lemma changeEffect_requests sc st :
  requests (changeEffect sc st) =
  if changed sc st then requests (snd (fetchGraph sc st)) else requests st.
Proof. unfold changeEffect. by case_match. Qed.

Lemma changeEffect_prev sc st :
  changed sc st = true →
  prevDuration (changeEffect sc st) = duration sc
  ∧ prevActiveNs (changeEffect sc st) = activeNamespaces sc.
Proof. unfold changeEffect. by intros ->. Qed.

(** *** The two ways [fetchGraph] can end after its [await] *)

Lemma fetchGraph_resume_cases sc q r st :
  (∃ g, fetchGraph_resume sc q r st = (Returned tt, setModel (modelOf g) st))
  ∨ (∃ e, fetchGraph_resume sc q r st =
          (Returned tt,
           if alertUtils sc then alertUtils_add (failureMessage e) st
           else st)).
Proof.
  unfold fetchGraph_resume, tryCatch, bind, lift, exec, ret.
  destruct r as [data|e]; simpl.
  - destruct (decorateGraphData _ _) as [gd|e]; simpl.
    + destruct (generateDataModel gd q) as [g|e]; simpl.
      * left. by exists g.
      * right. exists e. by destruct (alertUtils sc).
    + right. exists e. by destruct (alertUtils sc).
  - right. exists e. by destruct (alertUtils sc).
Qed.

Lemma fetchGraph_resume_threw sc q e st :
  fetchGraph_resume sc q (Threw e) st =
  (Returned tt,
   if alertUtils sc then alertUtils_add (failureMessage e) st else st).
Proof.
  unfold fetchGraph_resume, tryCatch, bind, lift, exec, ret. simpl.
  by destruct (alertUtils sc).
Qed.

Lemma fetchGraph_resume_returned sc q data gd g st :
  decorateGraphData (elements data) (data_duration data) = Returned gd →
  generateDataModel gd q = Returned g →
  fetchGraph_resume sc q (Returned data) st =
  (Returned tt, setModel (modelOf g) st).
Proof.
  intros Hd Hg.
  unfold fetchGraph_resume, tryCatch, bind, lift, exec, ret. simpl.
  by rewrite Hd, Hg.
Qed.

(** No call of [fetchGraph] ends in a rejected promise. *)
Lemma fetchGraph_resume_returns sc q r st :
  fst (fetchGraph_resume sc q r st) = Returned tt.
Proof.
  destruct (fetchGraph_resume_cases sc q r st) as [[g ->]|[e ->]]; done.
Qed.

Lemma fetchGraph_settles sc st :
  ∀ c, fst (fetchGraph sc st) = Settled c → c = Returned tt.
Proof.
  intros c. unfold fetchGraph, getGraphElements.
  case_match; simpl; congruence.
Qed.

(** *** What an event can do to the hooks *)

Lemma settle_cases n r st :
  settle n r st = st
  ∨ ∃ sc q, pending st !! n = Some (sc, q)
      ∧ let st0 := setPending (delete n (pending st)) st in
        (∃ g, settle n r st = setModel (modelOf g) st0)
        ∨ (∃ e, settle n r st =
                if alertUtils sc then alertUtils_add (failureMessage e) st0
                else st0).
Proof.
  unfold settle. destruct (pending st !! n) as [[sc q]|]; [|by left].
  right. exists sc, q. split; [done|]. simpl.
  destruct (fetchGraph_resume_cases sc q r
              (setPending (delete n (pending st)) st)) as [[g ->]|[e ->]].
  - left. by exists g.
  - right. by exists e.
Qed.

(** An event leaves the controller to the model effect, rejects no
    promise, and either keeps the stored model or stores one fresh
    model whose [graph] is [graphConfig]. *)
Lemma handle_frame e st :
  controller (handle e st) = controller st
  ∧ syncedRef (handle e st) = syncedRef st
  ∧ rejections (handle e st) = rejections st
  ∧ ((model (handle e st) = model st ∧ modelRef (handle e st) = modelRef st)
     ∨ (graph (model (handle e st)) = graphConfig
        ∧ modelRef (handle e st) = S (modelRef st))).
Proof.
  destruct e as [t sc|sc|n r]; simpl.
  - unfold changeEffect. destruct (changed sc st); [|by auto 10].
    unfold fetchGraph, getGraphElements. case_match; simpl; auto 10.
  - unfold fetchGraph, getGraphElements. case_match; simpl; auto 10.
  - destruct (settle_cases n r st) as [->|(sc & q & _ & [[g ->]|[e ->]])];
      [by auto 10| |]; simpl; [by auto 10|].
    destruct (alertUtils sc); simpl; auto 10.
Qed.

Lemma modelEffect_synced st :
  syncedRef (modelEffect st) = Some (modelRef (modelEffect st)).
Proof. unfold modelEffect. by case_bool_decide. Qed.

Lemma mount_at_rest sc : AtRest (mount sc).
Proof.
  unfold mount, changeEffect.
  assert (changed sc (initialPage sc) = false) as ->.
  { apply changed_false. by simpl. }
  by split; simpl; repeat constructor.
Qed.

Lemma step_at_rest st e : AtRest st → AtRest (step st e).
Proof.
  intros [Hs Hg Hc Hf Hl Hk Hr]. unfold step.
  destruct (handle_frame e st) as (Hctl & Hsy & Hrej & Hm).
  set (x := handle e st) in *.
  assert (graph (model x) = graphConfig) as Hgx.
  { destruct Hm as [[-> _]|[? _]]; done. }
  unfold modelEffect. case_bool_decide as Hdec.
  - split; congruence.
  - split; simpl; try congruence.
    rewrite Hctl. apply Forall_app. split; [done|].
    by repeat constructor.
Qed.

Lemma run_at_rest es : ∀ st, AtRest st → AtRest (run st es).
Proof.
  induction es as [|e es IH]; intros st Hst; [done|].
  simpl. by apply IH, step_at_rest.
Qed.

End Facts.

Section Coordinator.
Context `{GraphUtil}.

Implicit Types (st : Page) (sc : Scope) (q : GraphQueryElements).

Lemma step_world st e :
  pending (step st e) = pending (handle e st)
  ∧ requests (step st e) = requests (handle e st)
  ∧ alerts (step st e) = alerts (handle e st)
  ∧ fetchGraphCalls (step st e) = fetchGraphCalls (handle e st)
  ∧ rejections (step st e) = rejections (handle e st).
Proof. apply modelEffect_world. Qed.

Lemma step_hooks st e :
  model (step st e) = model (handle e st)
  ∧ modelRef (step st e) = modelRef (handle e st)
  ∧ prevActiveNs (step st e) = prevActiveNs (handle e st)
  ∧ prevDuration (step st e) = prevDuration (handle e st).
Proof. apply modelEffect_hooks. Qed.

(** C2. A call of [fetchGraph] with no active namespace stores a fresh
    model without nodes and without edges, passes no query to
    [getGraphElements], leaves nothing pending, and its promise is
    fulfilled: no alert is raised and nothing is thrown. *)
Theorem fetchGraph_empty_namespaces sc st :
  activeNamespaces sc = [] →
  let r := fetchGraph sc st in
  fst r = Settled (Returned tt)
  ∧ model (snd r) = emptyModel
  ∧ nodes (model (snd r)) = []
  ∧ edges (model (snd r)) = []
  ∧ modelRef (snd r) = S (modelRef st)
  ∧ requests (snd r) = requests st
  ∧ pending (snd r) = pending st
  ∧ alerts (snd r) = alerts st
  ∧ rejections (snd r) = rejections st.
Proof.
  intros Hns r. subst r. unfold fetchGraph. rewrite Hns. by simpl.
Qed.


(** C10. The model stored at the first render, the model of the
    empty-namespace path, the model built from any generator result, the
    model stored after any sequence of events and every model handed to
    the controller carry [graphConfig], which is
    [{id: 'g1', type: 'graph', layout: 'Dagre'}]. *)
Theorem graph_config_constant sc es :
  let st := run (mount sc) es in
  graph (model (initialPage sc)) = graphConfig
  ∧ graph emptyModel = graphConfig
  ∧ (∀ g, graph (modelOf g) = graphConfig)
  ∧ graph (model st) = graphConfig
  ∧ Forall (fun c => graph (fst c) = graphConfig)
           (fromModelCalls (controller st))
  ∧ id graphConfig = "g1"
  ∧ type graphConfig = "graph"
  ∧ layout graphConfig = "Dagre".
Proof.
  intros st.
  destruct (run_at_rest es (mount sc) (mount_at_rest sc)) as [_ Hg Hc _ _ _ _].
  repeat split; try done.
  eapply Forall_impl; [exact Hc|]. by intros c [? _].
Qed.

(** *** Settling a request *)

Lemma settle_threw st n sc q e :
  pending st !! n = Some (sc, q) →
  settle n (Threw e) st =
  let st0 := setPending (delete n (pending st)) st in
  if alertUtils sc then alertUtils_add (failureMessage e) st0 else st0.
Proof.
  intros Hp. unfold settle. rewrite Hp, fetchGraph_resume_threw. done.
Qed.

Lemma settle_returned st n sc q data gd g :
  pending st !! n = Some (sc, q) →
  decorateGraphData (elements data) (data_duration data) = Returned gd →
  generateDataModel gd q = Returned g →
  settle n (Returned data) st =
  setModel (modelOf g) (setPending (delete n (pending st)) st).
Proof.
  intros Hp Hd Hg. unfold settle.
  by rewrite Hp, (fetchGraph_resume_returned _ _ _ _ _ _ Hd Hg).
Qed.

Lemma settle_prev n r st :
  prevDuration (settle n r st) = prevDuration st
  ∧ prevActiveNs (settle n r st) = prevActiveNs st.
Proof.
  destruct (settle_cases n r st) as [->|(sc & q & _ & [[g ->]|[e ->]])];
    [done|done|]. by destruct (alertUtils sc).
Qed.

(** C3 (amended). When the telemetry request of a pending fetch fails,
    the rest of [fetchGraph] returns normally and rejects no promise, the
    stored model stays the same object and nothing is pushed to the
    controller; and [alertUtils.add] is called once, with
    "Could not fetch services: " followed by the error string, if
    [kialiState.alertUtils] is defined, and not at all if it is not. *)
Theorem failed_fetch_keeps_model st n sc q e :
  pending st !! n = Some (sc, q) →
  let st' := step st (Settle n (Threw e)) in
  fst (fetchGraph_resume sc q (Threw e)
         (setPending (delete n (pending st)) st)) = Returned tt
  ∧ rejections st' = rejections st
  ∧ model st' = model st
  ∧ modelRef st' = modelRef st
  ∧ (syncedRef st = Some (modelRef st) → controller st' = controller st)
  ∧ alerts st' =
    alerts st ++ (if alertUtils sc then [failureMessage e] else [])
  ∧ failureMessage e
    = ("Could not fetch services: " ++ getErrorString e)%string.
Proof.
  intros Hp st'. subst st'.
  destruct (step_world st (Settle n (Threw e))) as (_ & _ & -> & _ & ->).
  destruct (step_hooks st (Settle n (Threw e))) as (-> & -> & _ & _).
  unfold step. simpl handle. rewrite (settle_threw _ _ _ _ _ Hp).
  split; [apply fetchGraph_resume_returns|].
  destruct (alertUtils sc); simpl; repeat split;
    rewrite ?app_nil_r; try done;
    intros Hs; unfold modelEffect; simpl; by rewrite bool_decide_eq_true_2.
Qed.

(** C4 (amended). With two requests in flight, the older [n1] and the
    newer [n2], the model finally stored is the one built from whichever
    response arrives last, with the query of its own fetch: from the
    older request when its response arrives after the newer one's, from
    the newer request when the responses arrive in the order of the
    requests. *)
Theorem last_response_to_arrive_wins st n1 n2 sc1 q1 sc2 q2
    data1 data2 gd1 gd2 g1 g2 :
  (n1 < n2)%nat →
  pending st !! n1 = Some (sc1, q1) →
  pending st !! n2 = Some (sc2, q2) →
  decorateGraphData (elements data1) (data_duration data1) = Returned gd1 →
  generateDataModel gd1 q1 = Returned g1 →
  decorateGraphData (elements data2) (data_duration data2) = Returned gd2 →
  generateDataModel gd2 q2 = Returned g2 →
  model (run st [Settle n2 (Returned data2); Settle n1 (Returned data1)])
  = modelOf g1
  ∧ model (run st [Settle n1 (Returned data1); Settle n2 (Returned data2)])
    = modelOf g2.
Proof.
  intros Hlt Hp1 Hp2 Hd1 Hg1 Hd2 Hg2. simpl. split.
  - destruct (step_hooks (step st (Settle n2 (Returned data2)))
                (Settle n1 (Returned data1))) as (-> & _).
    simpl handle. erewrite settle_returned; [done| |done..].
    destruct (step_world st (Settle n2 (Returned data2))) as (-> & _).
    simpl handle. erewrite settle_returned; [|done..]. simpl.
    rewrite lookup_delete_ne; [done|lia].
  - destruct (step_hooks (step st (Settle n1 (Returned data1)))
                (Settle n2 (Returned data2))) as (-> & _).
    simpl handle. erewrite settle_returned; [done| |done..].
    destruct (step_world st (Settle n1 (Returned data1))) as (-> & _).
    simpl handle. erewrite settle_returned; [|done..]. simpl.
    rewrite lookup_delete_ne; [done|lia].
Qed.

(** C5 (amended). Every render that changes the duration or the
    namespace set calls [fetchGraph] at once, whatever the times of the
    renders: a burst of N such renders makes N calls of [fetchGraph],
    and when each has an active namespace it sends N queries, one per
    render and in their order. *)
Theorem burst_fetches_once_per_render burst : ∀ st,
  qualifying (prevDuration st) (prevActiveNs st) burst = true →
  let st' := run st (renders burst) in
  fetchGraphCalls st' = (fetchGraphCalls st + length burst)%nat
  ∧ (Forall (fun e => activeNamespaces (snd e) ≠ []) burst →
     requests st' =
     requests st
     ++ map (fun e => graphQueryElements (activeNamespaces (snd e))) burst).
Proof.
  induction burst as [|[t sc] burst IH]; intros st Hq; simpl.
  - split; [lia|]. by rewrite app_nil_r.
  - simpl in Hq. apply andb_true_iff in Hq as [Hc Hq].
    change (changed sc st = true) in Hc.
    set (st1 := step st (Render t sc)).
    assert (prevDuration st1 = duration sc
            ∧ prevActiveNs st1 = activeNamespaces sc) as [Hpd Hpn].
    { destruct (step_hooks st (Render t sc)) as (_ & _ & Hn & Hd).
      unfold st1. rewrite Hn, Hd. simpl handle.
      destruct (changeEffect_prev sc st Hc). done. }
    assert (fetchGraphCalls st1 = S (fetchGraphCalls st)) as Hcalls.
    { destruct (step_world st (Render t sc)) as (_ & _ & _ & Hf & _).
      unfold st1. rewrite Hf. simpl handle.
      by rewrite changeEffect_calls, Hc. }
    rewrite <- Hpd, <- Hpn in Hq.
    destruct (IH st1 Hq) as [IHc IHr]. split.
    + fold (renders burst). rewrite IHc, Hcalls. lia.
    + intros Hall. apply Forall_cons in Hall as [Hne Hall].
      fold (renders burst). rewrite (IHr Hall).
      destruct (step_world st (Render t sc)) as (_ & Hrq & _).
      fold st1 in Hrq. rewrite Hrq. simpl handle.
      rewrite changeEffect_requests, Hc, fetchGraph_requests.
      destruct (length (activeNamespaces sc) =? 0)%nat eqn:Hl.
      * by apply length_zero_nil in Hl.
      * simpl in Hne. by rewrite <- app_assoc.
Qed.

(** C6 (amended). The snapshot is replaced when the fetch is triggered:
    the render that detects the change sets the previous duration and
    the previous namespaces in the same effect run that sends the query,
    and with an active namespace it leaves the stored model as it was
    and the request pending.  Settling a request, with a response or
    with an error, never touches the snapshot; a response replaces nodes
    and edges together, by one [setModel]. *)
Theorem snapshot_replaced_at_trigger st t sc :
  changed sc st = true →
  let st' := step st (Render t sc) in
  prevDuration st' = duration sc
  ∧ prevActiveNs st' = activeNamespaces sc
  ∧ (activeNamespaces sc ≠ [] →
     model st' = model st
     ∧ modelRef st' = modelRef st
     ∧ pending st' !! length (requests st) =
       Some (sc, graphQueryElements (activeNamespaces sc)))
  ∧ (∀ n r,
       prevDuration (step st' (Settle n r)) = duration sc
       ∧ prevActiveNs (step st' (Settle n r)) = activeNamespaces sc)
  ∧ (∀ data gd g,
       activeNamespaces sc ≠ [] →
       decorateGraphData (elements data) (data_duration data)
       = Returned gd →
       generateDataModel gd (graphQueryElements (activeNamespaces sc))
       = Returned g →
       model (step st' (Settle (length (requests st)) (Returned data)))
       = modelOf g).
Proof.
  intros Hc st'.
  assert (prevDuration st' = duration sc
          ∧ prevActiveNs st' = activeNamespaces sc) as [Hpd Hpn].
  { destruct (step_hooks st (Render t sc)) as (_ & _ & Hn & Hd).
    unfold st'. rewrite Hn, Hd. simpl handle.
    by destruct (changeEffect_prev sc st Hc). }
  assert (activeNamespaces sc ≠ [] →
          model st' = model st ∧ modelRef st' = modelRef st
          ∧ pending st' !! length (requests st) =
            Some (sc, graphQueryElements (activeNamespaces sc))) as Hfly.
  { intros Hne.
    destruct (step_hooks st (Render t sc)) as (Hm & Hr & _).
    destruct (step_world st (Render t sc)) as (Hp & _).
    unfold st'. rewrite Hm, Hr, Hp. simpl handle.
    unfold changeEffect. rewrite Hc. unfold fetchGraph, getGraphElements.
    destruct (length (activeNamespaces sc) =? 0)%nat eqn:Hl.
    { by apply length_zero_nil in Hl. }
    simpl. by rewrite lookup_insert_eq. }
  split; [done|]. split; [done|]. split; [done|]. split.
  - intros n r.
    destruct (step_hooks st' (Settle n r)) as (_ & _ & -> & ->).
    simpl handle. destruct (settle_prev n r st') as [-> ->]. done.
  - intros data gd g Hne Hd Hg.
    destruct (step_hooks st' (Settle (length (requests st)) (Returned data)))
      as (-> & _).
    simpl handle. destruct (Hfly Hne) as (_ & _ & Hp).
    by rewrite (settle_returned _ _ _ _ _ _ _ Hp Hd Hg).
Qed.

(** C8. After every event that stores a model, the model effect calls
    [controller.fromModel] once, with the stored model and [false]; an
    event that stores none leaves the controller alone.  Every call of
    [fromModel] the page ever makes has [false] as second argument, the
    first one is made at mount with the initial model, and the
    controller was created with the two Kiali factories registered and
    fit-to-screen-on-layout switched on. *)
Theorem new_model_pushed_unanimated sc es e :
  let st := run (mount sc) es in
  let st' := step st e in
  (modelRef st' ≠ modelRef st →
   fromModelCalls (controller st') =
   fromModelCalls (controller st) ++ [(model st', false)])
  ∧ (modelRef st' = modelRef st → controller st' = controller st)
  ∧ Forall (fun c => snd c = false) (fromModelCalls (controller st'))
  ∧ fitToScreenOnLayout (controller st') = true
  ∧ layoutFactories (controller st') = [KialiLayoutFactory]
  ∧ componentFactories (controller st') = [KialiComponentFactory]
  ∧ fromModelCalls (controller (mount sc)) = [(emptyModel, false)].
Proof.
  intros st st'.
  pose proof (run_at_rest es (mount sc) (mount_at_rest sc)) as Hrest.
  fold st in Hrest.
  pose proof (step_at_rest st e Hrest) as Hrest'. fold st' in Hrest'.
  destruct Hrest as [Hs _ _ _ _ _ _].
  destruct (handle_frame e st) as (Hctl & Hsy & _ & _).
  assert (modelRef st' = modelRef (handle e st)
          ∧ model st' = model (handle e st)) as [Hr Hm].
  { unfold st'. by destruct (step_hooks st e) as (-> & -> & _). }
  split; [|split; [|split; [|split; [|split; [|split]]]]].
  - intros Hne. rewrite Hm. unfold st', step, modelEffect.
    case_bool_decide as Hdec; [|simpl; by rewrite Hctl].
    rewrite Hsy, Hs in Hdec. congruence.
  - intros Heq. unfold st', step, modelEffect.
    case_bool_decide as Hdec; [done|].
    rewrite Hsy, Hs in Hdec. congruence.
  - destruct Hrest' as [_ _ Hc _ _ _ _].
    eapply Forall_impl; [exact Hc|]. by intros c [_ ?].
  - by destruct Hrest'.
  - by destruct Hrest'.
  - by destruct Hrest'.
  - unfold mount, changeEffect.
    assert (changed sc (initialPage sc) = false) as ->; [|done].
    apply changed_false. by simpl.
Qed.

(** *** The snapshot and the view *)

Lemma mount_tracks sc : Tracks sc (mount sc).
Proof.
  unfold mount, changeEffect.
  assert (changed sc (initialPage sc) = false) as ->; [|by split].
  apply changed_false. by simpl.
Qed.

Lemma step_tracks view st e :
  Tracks view st → Tracks (viewAfter view e) (step st e).
Proof.
  intros [Hd Hn].
  destruct (step_hooks st e) as (_ & _ & Hpn & Hpd).
  split; rewrite ?Hpn, ?Hpd; destruct e as [t sc|sc|n r]; simpl.
  - destruct (changed sc st) eqn:Hc.
    + by destruct (changeEffect_prev sc st Hc) as [-> _].
    + unfold changeEffect. rewrite Hc.
      by destruct (proj1 (changed_false sc st) Hc) as [-> _].
  - unfold fetchGraph, getGraphElements. by case_match.
  - by destruct (settle_prev n r st) as [-> _].
  - destruct (changed sc st) eqn:Hc.
    + by destruct (changeEffect_prev sc st Hc) as [_ ->].
    + unfold changeEffect. rewrite Hc.
      destruct (proj1 (changed_false sc st) Hc) as [_ Heq].
      intros x. by rewrite Heq.
  - unfold fetchGraph, getGraphElements. by case_match.
  - by destruct (settle_prev n r st) as [_ ->].
Qed.

Lemma run_tracks es : ∀ view st,
  Tracks view st → Tracks (fold_left viewAfter es view) (run st es).
Proof.
  induction es as [|e es IH]; intros view st Hst; [done|].
  simpl. by apply IH, step_tracks.
Qed.

(** C1 (amended). On a page mounted with any view and taken through any
    renders, refreshes and settlements, a render starts [fetchGraph]
    exactly when its duration differs from the one of the view on
    display or its active namespaces differ from those of that view as a
    set; and it sends a query to the telemetry source exactly when, in
    addition, it has an active namespace.  A reordering of the same
    namespaces starts nothing and sends nothing.  A namespace that is in
    one of the two arrays and not in the other always starts
    [fetchGraph]: the query is sent if a namespace is active, and if
    none is left the empty model is stored and nothing is sent. *)
Theorem view_change_fetches_iff_changed sc0 es t sc :
  let st := run (mount sc0) es in
  let view := lastView sc0 es in
  let st' := step st (Render t sc) in
  (fetchGraphCalls st' = S (fetchGraphCalls st) ↔
     duration sc ≠ duration view
     ∨ (¬ ∀ x, x ∈ activeNamespaces sc ↔ x ∈ activeNamespaces view))
  ∧ (fetchGraphCalls st' = fetchGraphCalls st ↔
     duration sc = duration view
     ∧ (∀ x, x ∈ activeNamespaces sc ↔ x ∈ activeNamespaces view))
  ∧ (requests st' =
     requests st ++ [graphQueryElements (activeNamespaces sc)] ↔
     (duration sc ≠ duration view
      ∨ (¬ ∀ x, x ∈ activeNamespaces sc ↔ x ∈ activeNamespaces view))
     ∧ activeNamespaces sc ≠ [])
  ∧ (requests st' = requests st ↔
     (duration sc = duration view
      ∧ (∀ x, x ∈ activeNamespaces sc ↔ x ∈ activeNamespaces view))
     ∨ activeNamespaces sc = [])
  ∧ (duration sc = duration view →
     activeNamespaces sc ≡ₚ activeNamespaces view →
     fetchGraphCalls st' = fetchGraphCalls st ∧ requests st' = requests st)
  ∧ (∀ x, (x ∈ activeNamespaces sc ∧ x ∉ activeNamespaces view)
          ∨ ((x ∉ activeNamespaces sc) ∧ x ∈ activeNamespaces view) →
     fetchGraphCalls st' = S (fetchGraphCalls st)
     ∧ (activeNamespaces sc ≠ [] →
        requests st' =
        requests st ++ [graphQueryElements (activeNamespaces sc)])
     ∧ (activeNamespaces sc = [] →
        requests st' = requests st ∧ model st' = emptyModel)).
Proof.
  intros st view st'.
  destruct (run_tracks es sc0 (mount sc0) (mount_tracks sc0)) as [Hd Hn].
  fold st in Hd, Hn. fold (lastView sc0 es) in Hd, Hn. fold view in Hd, Hn.
  assert (changed sc st = true ↔
          duration sc ≠ duration view
          ∨ (¬ ∀ x, x ∈ activeNamespaces sc ↔ x ∈ activeNamespaces view))
    as Htrue.
  { rewrite changed_true, Hd. apply or_iff_compat_l, not_iff_compat.
    split; intros Hx x; [by rewrite <- Hn|by rewrite Hn]. }
  assert (changed sc st = false ↔
          duration sc = duration view
          ∧ (∀ x, x ∈ activeNamespaces sc ↔ x ∈ activeNamespaces view))
    as Hfalse.
  { rewrite changed_false, Hd. apply and_iff_compat_l.
    split; intros Hx x; [by rewrite <- Hn|by rewrite Hn]. }
  assert (fetchGraphCalls st' =
          if changed sc st then S (fetchGraphCalls st)
          else fetchGraphCalls st) as Hcalls.
  { unfold st'.
    destruct (step_world st (Render t sc)) as (_ & _ & _ & -> & _).
    simpl handle. apply changeEffect_calls. }
  assert (requests st' =
          if changed sc st
          then requests st
               ++ (if (length (activeNamespaces sc) =? 0)%nat then []
                   else [graphQueryElements (activeNamespaces sc)])
          else requests st) as Hreqs.
  { unfold st'.
    destruct (step_world st (Render t sc)) as (_ & -> & _).
    simpl handle. rewrite changeEffect_requests.
    destruct (changed sc st); [apply fetchGraph_requests|done]. }
  assert (changed sc st = true → activeNamespaces sc = [] →
          model st' = emptyModel) as Hempty.
  { intros Hc Hnil. unfold st'.
    destruct (step_hooks st (Render t sc)) as (-> & _).
    simpl handle. unfold changeEffect, fetchGraph. by rewrite Hc, Hnil. }
  assert (∀ q : GraphQueryElements, requests st ++ [q] ≠ requests st)
    as Hgrow.
  { intros q Heq. apply (f_equal length) in Heq.
    rewrite length_app in Heq. simpl in Heq. lia. }
  assert ((length (activeNamespaces sc) =? 0)%nat = false ↔
          activeNamespaces sc ≠ []) as Hlen.
  { rewrite <- length_zero_nil. by destruct (_ =? _)%nat. }
  split; [|split; [|split; [|split; [|split]]]].
  - rewrite Hcalls, <- Htrue.
    destruct (changed sc st); split; intros; (done || lia).
  - rewrite Hcalls, <- Hfalse.
    destruct (changed sc st); split; intros; (done || lia).
  - rewrite Hreqs, <- Htrue, <- Hlen.
    destruct (changed sc st);
      [destruct (length (activeNamespaces sc) =? 0)%nat|].
    + rewrite app_nil_r. split; [|by intros [_ ?]].
      intros Heq. by destruct (Hgrow _ (eq_sym Heq)).
    + done.
    + split; [|by intros [? _]].
      intros Heq. by destruct (Hgrow _ (eq_sym Heq)).
  - rewrite Hreqs, <- Hfalse, <- (length_zero_nil (activeNamespaces sc)).
    destruct (changed sc st);
      [destruct (length (activeNamespaces sc) =? 0)%nat|].
    + rewrite app_nil_r. split; [by right|done].
    + split; [|by intros [?|?]].
      intros Heq. by destruct (Hgrow _ Heq).
    + split; [by left|done].
  - intros Hsd Hp.
    assert (changed sc st = false) as Hc.
    { apply Hfalse. split; [done|]. intros x. by rewrite Hp. }
    by rewrite Hcalls, Hreqs, Hc.
  - intros x Hx.
    assert (changed sc st = true) as Hc.
    { apply Htrue. right. intros Hall. specialize (Hall x). tauto. }
    rewrite Hcalls, Hreqs, Hc. split; [done|]. split.
    + intros Hne. by rewrite (proj2 Hlen Hne).
    + intros Hnil. split; [|by apply Hempty].
      by rewrite (proj2 (length_zero_nil _) Hnil), app_nil_r.
Qed.

End Coordinator.

(** * The page over its whole life *)

Section Lifecycle.
Context `{GraphUtil}.

Implicit Types (st : Page) (sc : Scope) (q : GraphQueryElements).

(** *** Accounting of requests *)

Lemma fetchGraph_accounted sc st :
  Accounted st → Accounted (snd (fetchGraph sc st)).
Proof.
  intros [Hr Hp Ha Hm]. unfold fetchGraph, getGraphElements.
  destruct (length (activeNamespaces sc) =? 0)%nat eqn:Hl; simpl.
  { by split. }
  assert (activeNamespaces sc ≠ []) as Hne.
  { intros Hnil. apply length_zero_nil in Hnil. congruence. }
  assert (pending st !! length (requests st) = None) as Hfresh.
  { destruct (pending st !! length (requests st)) as [[sc' q']|] eqn:Hlk;
      [|done].
    destruct (Hp _ _ _ Hlk) as [Hreq _].
    apply lookup_lt_Some in Hreq. lia. }
  split; simpl.
  - apply Forall_app. split; [done|]. repeat constructor. by eexists.
  - intros n sc' q' Hlk. apply lookup_insert_Some in Hlk
      as [(<- & [= <- <-])|(Hn & Hlk)].
    + split; [|done]. by rewrite list_lookup_middle.
    + destruct (Hp _ _ _ Hlk) as (Hreq & ? & ?).
      split; [|done]. by apply lookup_app_l_Some.
  - rewrite map_size_insert_None, length_app by done. simpl. lia.
  - done.
Qed.

Lemma settle_pending n r st :
  pending (settle n r st) = delete n (pending st).
Proof.
  unfold settle. destruct (pending st !! n) as [[sc q]|] eqn:Hlk.
  - destruct (fetchGraph_resume_cases sc q r
                (setPending (delete n (pending st)) st)) as [[g ->]|[e ->]];
      [done|]. by destruct (alertUtils sc).
  - by rewrite delete_id.
Qed.

Lemma settle_accounted n r st : Accounted st → Accounted (settle n r st).
Proof.
  intros [Hr Hp Ha Hm].
  destruct (settle_cases n r st) as [->|(sc & q & Hlk & Hcase)]; [done|].
  assert (size (delete n (pending st)) = pred (size (pending st))
          ∧ (0 < size (pending st))%nat) as [Hsz Hpos].
  { split; [by apply map_size_delete_Some|].
    destruct (size (pending st)) eqn:Hz; [|lia].
    apply map_size_empty_iff in Hz. rewrite Hz in Hlk. done. }
  assert (∀ m sc' q', delete n (pending st) !! m = Some (sc', q') →
            requests st !! m = Some q'
            ∧ q' = graphQueryElements (activeNamespaces sc')
            ∧ activeNamespaces sc' ≠ []) as Hp'.
  { intros m sc' q' Hd. apply lookup_delete_Some in Hd as [_ Hd]. eauto. }
  simpl in Hcase. destruct Hcase as [[g ->]|[e ->]].
  - split; simpl; [done|done| |done]. rewrite Hsz. lia.
  - destruct (alertUtils sc); split; simpl; try done.
    + rewrite length_app, Hsz. simpl. lia.
    + apply Forall_app. split; [done|]. repeat constructor. by eexists.
    + rewrite Hsz. lia.
Qed.

Lemma step_accounted st e : Accounted st → Accounted (step st e).
Proof.
  intros Hacc.
  assert (Accounted (handle e st)) as [Hr Hp Ha Hm].
  { destruct e as [t sc|sc|n r]; simpl.
    - unfold changeEffect. destruct (changed sc st); [|done].
      destruct (fetchGraph_accounted sc st Hacc). by split.
    - by apply fetchGraph_accounted.
    - by apply settle_accounted. }
  destruct (step_world st e) as (Ep & Er & Ea & _).
  split; rewrite ?Ep, ?Er, ?Ea; done.
Qed.

Lemma mount_world sc :
  fetchGraphCalls (mount sc) = 0%nat
  ∧ requests (mount sc) = []
  ∧ pending (mount sc) = ∅
  ∧ alerts (mount sc) = []
  ∧ model (mount sc) = emptyModel
  ∧ modelRef (mount sc) = 0%nat
  ∧ prevDuration (mount sc) = duration sc
  ∧ prevActiveNs (mount sc) = activeNamespaces sc.
Proof.
  unfold mount, changeEffect.
  assert (changed sc (initialPage sc) = false) as ->; [|done].
  apply changed_false. by simpl.
Qed.

Lemma mount_accounted sc : Accounted (mount sc).
Proof.
  destruct (mount_world sc) as (_ & Hr & Hp & Ha & _).
  split; rewrite ?Hr, ?Hp, ?Ha; done.
Qed.

Lemma run_accounted es : ∀ st, Accounted st → Accounted (run st es).
Proof.
  induction es as [|e es IH]; intros st Hst; [done|].
  simpl. by apply IH, step_accounted.
Qed.

(** X1. Whatever happens to a mounted page, every query it has sent to
    the telemetry source is [graphQueryElements] of an array with at
    least one namespace, with both namespace fields the same string: a
    query without a namespace is never sent. *)
Theorem queries_name_a_namespace sc es :
  Forall (fun q => ∃ ns, ns ≠ [] ∧ q = graphQueryElements ns
                         ∧ namespaces q = join "," ns
                         ∧ Query.activeNamespaces q = namespaces q)
         (requests (run (mount sc) es)).
Proof.
  destruct (run_accounted es (mount sc) (mount_accounted sc)) as [Hr _ _ _].
  eapply Forall_impl; [exact Hr|].
  intros q (ns & Hne & ->). by exists ns.
Qed.

(** X2. On every page reached from a mount, a call of [fetchGraph] in
    flight waits for the query logged under its number, which is the
    query of the namespaces of its own scope; alerts and calls in flight
    together never outnumber the queries sent, so a request raises at
    most one alert; and every alert is "Could not fetch services: "
    followed by an error string. *)
Theorem in_flight_accounting sc es :
  let st := run (mount sc) es in
  (∀ n sc' q, pending st !! n = Some (sc', q) →
     requests st !! n = Some q
     ∧ q = graphQueryElements (activeNamespaces sc')
     ∧ activeNamespaces sc' ≠ [])
  ∧ (length (alerts st) + size (pending st) ≤ length (requests st))%nat
  ∧ Forall (fun m => ∃ e,
              m = ("Could not fetch services: " ++ getErrorString e)%string)
           (alerts st).
Proof.
  intros st.
  destruct (run_accounted es (mount sc) (mount_accounted sc))
    as [_ Hp Ha Hm].
  done.
Qed.

Lemma modelEffect_idem st : modelEffect (modelEffect st) = modelEffect st.
Proof.
  unfold modelEffect at 1.
  by rewrite bool_decide_eq_true_2 by apply modelEffect_synced.
Qed.

Lemma fetchGraph_resume_processing sc q data e st :
  decorateGraphData (elements data) (data_duration data) = Threw e
  ∨ (∃ gd, decorateGraphData (elements data) (data_duration data)
           = Returned gd
           ∧ generateDataModel gd q = Threw e) →
  fetchGraph_resume sc q (Returned data) st =
  (Returned tt,
   if alertUtils sc then alertUtils_add (failureMessage e) st else st).
Proof.
  intros Hthrow.
  unfold fetchGraph_resume, tryCatch, bind, lift, exec, ret. simpl.
  destruct Hthrow as [->|(gd & -> & Hg)]; simpl; [|rewrite Hg; simpl];
    by destruct (alertUtils sc).
Qed.

(** X3. When the response arrives and [decorateGraphData] or
    [generateDataModel] throws, the page behaves as for a failed
    request: the stored model stays the same object, no promise is
    rejected, no query is sent, and the alert, if [alertUtils] is
    defined, carries the string of the thrown error. *)
Theorem processing_error_keeps_model st n sc q data e :
  pending st !! n = Some (sc, q) →
  decorateGraphData (elements data) (data_duration data) = Threw e
  ∨ (∃ gd, decorateGraphData (elements data) (data_duration data)
           = Returned gd
           ∧ generateDataModel gd q = Threw e) →
  let st' := step st (Settle n (Returned data)) in
  model st' = model st
  ∧ modelRef st' = modelRef st
  ∧ rejections st' = rejections st
  ∧ requests st' = requests st
  ∧ alerts st' =
    alerts st ++ (if alertUtils sc then [failureMessage e] else []).
Proof.
  intros Hp Hthrow st'. subst st'.
  destruct (step_world st (Settle n (Returned data)))
    as (_ & -> & -> & _ & ->).
  destruct (step_hooks st (Settle n (Returned data))) as (-> & -> & _ & _).
  simpl handle. unfold settle.
  rewrite Hp, (fetchGraph_resume_processing _ _ _ _ _ Hthrow).
  destruct (alertUtils sc); simpl; by rewrite ?app_nil_r.
Qed.

(** X4. No sequence of renders, refreshes and settlements, with
    responses or with errors, ever rejects a promise of [fetchGraph]:
    the part of [fetchGraph] after its [await] always returns. *)
Theorem fetchGraph_never_rejects sc es :
  rejections (run (mount sc) es) = []
  ∧ ∀ sc' q r st, fst (fetchGraph_resume sc' q r st) = Returned tt.
Proof.
  split.
  - by destruct (run_at_rest es (mount sc) (mount_at_rest sc)).
  - intros. apply fetchGraph_resume_returns.
Qed.

(** X5. A refresh always calls [fetchGraph], changed view or not, and
    leaves the snapshot alone: what the next render counts as a change
    is the same before and after it. *)
Theorem refresh_keeps_snapshot st sc :
  let st' := step st (Refresh sc) in
  fetchGraphCalls st' = S (fetchGraphCalls st)
  ∧ prevDuration st' = prevDuration st
  ∧ prevActiveNs st' = prevActiveNs st
  ∧ ∀ sc', changed sc' st' = changed sc' st.
Proof.
  intros st'.
  assert (prevDuration st' = prevDuration st
          ∧ prevActiveNs st' = prevActiveNs st) as [Hd Hn].
  { unfold st'.
    destruct (step_hooks st (Refresh sc)) as (_ & _ & -> & ->).
    simpl handle. unfold fetchGraph, getGraphElements. by case_match. }
  split; [|split; [done|split; [done|]]].
  - unfold st'. destruct (step_world st (Refresh sc)) as (_ & _ & _ & -> & _).
    simpl handle. apply fetchGraph_calls.
  - intros sc'. unfold changed. by rewrite Hd, Hn.
Qed.

(** X6. Mounting fetches nothing: after the first render and its effects
    [fetchGraph] has not been called, no query is out, nothing is in
    flight, the model is the empty one and the snapshot is the view of
    the first render.  Of the events that can come first after that, a
    refresh on the mounted view sends the query of its namespaces if it
    has any, a render sends the query of its own namespaces if it has
    any and differs from the mounted view in duration or in namespaces,
    and a settlement sends none. *)
Theorem mount_fetches_nothing sc :
  fetchGraphCalls (mount sc) = 0%nat
  ∧ requests (mount sc) = []
  ∧ pending (mount sc) = ∅
  ∧ model (mount sc) = emptyModel
  ∧ prevDuration (mount sc) = duration sc
  ∧ prevActiveNs (mount sc) = activeNamespaces sc
  ∧ requests (step (mount sc) (Refresh sc)) =
    (if (length (activeNamespaces sc) =? 0)%nat then []
     else [graphQueryElements (activeNamespaces sc)])
  ∧ (∀ t sc',
       requests (step (mount sc) (Render t sc')) =
       if (negb (duration sc' =? duration sc)%Z
           || negb (nsEqual (activeNamespaces sc') (activeNamespaces sc)))
          && negb (length (activeNamespaces sc') =? 0)%nat
       then [graphQueryElements (activeNamespaces sc')]
       else [])
  ∧ (∀ n r, requests (step (mount sc) (Settle n r)) = []).
Proof.
  destruct (mount_world sc) as (Hc & Hr & Hp & _ & Hm & _ & Hd & Hn).
  split; [done|]. split; [done|]. split; [done|]. split; [done|].
  split; [done|]. split; [done|]. split; [|split].
  - destruct (step_world (mount sc) (Refresh sc)) as (_ & -> & _).
    simpl handle. by rewrite fetchGraph_requests, Hr.
  - intros t sc'.
    destruct (step_world (mount sc) (Render t sc')) as (_ & -> & _).
    simpl handle. rewrite changeEffect_requests. unfold changed.
    rewrite Hd, Hn.
    destruct (negb (duration sc' =? duration sc)%Z
              || negb (nsEqual (activeNamespaces sc') (activeNamespaces sc)));
      simpl; [|done].
    rewrite fetchGraph_requests, Hr.
    by destruct (length (activeNamespaces sc') =? 0)%nat.
  - intros n r.
    destruct (step_world (mount sc) (Settle n r)) as (_ & -> & _).
    simpl handle. unfold settle. by rewrite Hp, lookup_empty.
Qed.

(** X7. Rendering the same view a second time does nothing at all: the
    page after the second render is the page after the first, whether
    or not the first one started a fetch. *)
Theorem rerender_is_idle st t t' sc :
  step (step st (Render t sc)) (Render t' sc) = step st (Render t sc).
Proof.
  set (s1 := step st (Render t sc)).
  assert (changed sc s1 = false) as Hc.
  { unfold changed, s1.
    destruct (step_hooks st (Render t sc)) as (_ & _ & -> & ->).
    simpl handle. destruct (changed sc st) eqn:Hch.
    - destruct (changeEffect_prev sc st Hch) as [-> ->].
      rewrite Z.eqb_refl. simpl.
      by rewrite (proj2 (nsEqual_true _ _)).
    - unfold changeEffect. rewrite Hch. exact Hch. }
  unfold step at 1. simpl handle. unfold changeEffect. rewrite Hc.
  apply modelEffect_idem.
Qed.

(** *** The controller and the stored model *)

Lemma mount_shown sc : Shown (mount sc).
Proof.
  unfold mount, changeEffect.
  assert (changed sc (initialPage sc) = false) as ->; [|by split].
  apply changed_false. by simpl.
Qed.

Lemma step_shown st e : Shown st → Shown (step st e).
Proof.
  intros [Hs Hl Hc]. unfold step.
  destruct (handle_frame e st) as (Hctl & Hsy & _ & Hm).
  set (x := handle e st) in *.
  unfold modelEffect. case_bool_decide as Hdec.
  - rewrite Hsy, Hs in Hdec. injection Hdec as Href.
    destruct Hm as [[Hmod _]|[_ Hsucc]]; [|lia].
    split; [congruence|by rewrite Hctl, Hmod|by rewrite Hctl, <- Href].
  - assert (modelRef x = S (modelRef st)) as Href.
    { destruct Hm as [[_ Hsame]|[_ Hsucc]]; [|done].
      destruct Hdec. by rewrite Hsy, Hs, Hsame. }
    split; simpl; [done|apply last_snoc|].
    rewrite length_app, Hctl, Hc, Href. simpl. lia.
Qed.

Lemma run_shown es : ∀ st, Shown st → Shown (run st es).
Proof.
  induction es as [|e es IH]; intros st Hst; [done|].
  simpl. by apply IH, step_shown.
Qed.

(** X8. Between events the controller shows what the page stores: the
    last model handed to [fromModel] is the stored model, and
    [fromModel] has been called once for the initial model and once for
    every model stored since, no more and no less. *)
Theorem controller_shows_stored_model sc es :
  let st := run (mount sc) es in
  last (fromModelCalls (controller st)) = Some (model st, false)
  ∧ length (fromModelCalls (controller st)) = S (modelRef st).
Proof.
  intros st. by destruct (run_shown es (mount sc) (mount_shown sc)).
Qed.

End Lifecycle.

Section Clearing.
Context `{GraphUtil}.

Implicit Types (st : Page) (sc : Scope) (q : GraphQueryElements).

(** X9. A render that clears the selection of namespaces empties the
    stored model at once, without a query and without touching the calls
    in flight; a response to an earlier request that arrives afterwards
    is still applied, so the graph of the old selection comes back
    although the snapshot says that no namespace is active. *)
Theorem cleared_selection_refilled_by_late_response
    st t sc n sc' q data gd g :
  changed sc st = true →
  activeNamespaces sc = [] →
  pending st !! n = Some (sc', q) →
  decorateGraphData (elements data) (data_duration data) = Returned gd →
  generateDataModel gd q = Returned g →
  let st1 := step st (Render t sc) in
  model st1 = emptyModel
  ∧ requests st1 = requests st
  ∧ pending st1 = pending st
  ∧ prevActiveNs st1 = []
  ∧ model (step st1 (Settle n (Returned data))) = modelOf g
  ∧ prevActiveNs (step st1 (Settle n (Returned data))) = [].
Proof.
  intros Hc Hnil Hp Hd Hg st1.
  assert (handle (Render t sc) st
          = setPrev (duration sc) []
              (setModel emptyModel (enterFetchGraph st))) as Hh.
  { simpl. unfold changeEffect, fetchGraph. by rewrite Hc, Hnil. }
  destruct (step_hooks st (Render t sc)) as (Hm1 & _ & Hn1 & _).
  destruct (step_world st (Render t sc)) as (Hp1 & Hr1 & _).
  fold st1 in Hm1, Hn1, Hp1, Hr1. rewrite Hh in Hm1, Hn1, Hp1, Hr1.
  simpl in Hm1, Hn1, Hp1, Hr1.
  split; [done|]. split; [done|]. split; [done|]. split; [done|].
  destruct (step_hooks st1 (Settle n (Returned data)))
    as (-> & _ & -> & _).
  simpl handle. split.
  - rewrite <- Hp1 in Hp. by rewrite (settle_returned _ _ _ _ _ _ _ Hp Hd Hg).
  - by destruct (settle_prev n (Returned data) st1) as [_ ->].
Qed.

End Clearing.

(** * The view and the theme *)

Section View.
Context `{GraphUtil}.
Variable Entity : Type.
Variable getEntityNs : Entity -> list string.

Implicit Types (entity : option Entity) (kialiState : Store.KialiAppState).

(** X10. [getNamespaces] returns exactly when there is an entity or a
    namespace state, and throws a [TypeError] otherwise.  The store wins:
    with a namespace state the result is the names of its active
    namespaces in their order, the same for every entity and for none;
    the namespaces of the entity are used only without such a state. *)
Theorem getNamespaces_store_first entity kialiState :
  ((∃ ns, getNamespaces Entity getEntityNs entity kialiState = Returned ns)
   ↔ is_Some entity ∨ is_Some (Store.namespaces kialiState))
  ∧ (∀ state entity',
       Store.namespaces kialiState = Some state →
       getNamespaces Entity getEntityNs entity' kialiState
       = Returned (map Store.name (Store.activeNamespaces state)))
  ∧ (∀ e,
       Store.namespaces kialiState = None →
       getNamespaces Entity getEntityNs (Some e) kialiState
       = Returned (getEntityNs e)).
Proof.
  unfold getNamespaces. split; [|split].
  - destruct entity as [e|], (Store.namespaces kialiState) as [state|];
      split; try (intros _; eauto; fail).
    + intros [ns Hns]. discriminate.
    + intros [[? [=]]|[? [=]]].
  - intros state [e|] ->; done.
  - by intros e ->.
Qed.

(** X11. With a namespace state in the store, a render binds the names
    of its active namespaces whatever the entity says, and a fetch from
    that render sends one query for exactly these names, joined in the
    order of the store; if the state has no active namespace, the fetch
    stores the empty model and sends nothing, even for an entity that
    has namespaces of its own. *)
Theorem store_selection_drives_fetch entity kialiState state d st :
  Store.namespaces kialiState = Some state →
  ∃ sc,
    renderScope Entity getEntityNs entity kialiState d = Returned sc
    ∧ activeNamespaces sc = map Store.name (Store.activeNamespaces state)
    ∧ duration sc = d
    ∧ alertUtils sc = Store.alertUtils kialiState
    ∧ (Store.activeNamespaces state = [] →
       fst (fetchGraph sc st) = Settled (Returned tt)
       ∧ model (snd (fetchGraph sc st)) = emptyModel
       ∧ requests (snd (fetchGraph sc st)) = requests st)
    ∧ (Store.activeNamespaces state ≠ [] →
       requests (snd (fetchGraph sc st)) =
       requests st
       ++ [graphQueryElements
             (map Store.name (Store.activeNamespaces state))]).
Proof.
  intros Hstate. unfold renderScope, getNamespaces. rewrite Hstate.
  eexists. split; [by destruct entity|]. simpl.
  split; [done|]. split; [done|]. split; [done|]. split.
  - intros Hnil. unfold fetchGraph. simpl. by rewrite Hnil.
  - intros Hne. rewrite fetchGraph_requests. simpl.
    destruct (Store.activeNamespaces state); done.
Qed.

End View.

Lemma classList_remove_absent token classList :
  token ∉ classList → classList_remove token classList = classList.
Proof.
  unfold classList_remove.
  induction classList as [|c l IH]; intros Habs; [done|].
  apply not_elem_of_cons in Habs as [Hne Hl].
  rewrite filter_cons_True by done. by rewrite IH.
Qed.

Lemma classList_add_present token classList :
  token ∈ classList → classList_add token classList = classList.
Proof. intros Hin. unfold classList_add. by rewrite bool_decide_eq_true_2. Qed.

Lemma classList_add_elem token classList :
  token ∈ classList_add token classList.
Proof.
  unfold classList_add. case_bool_decide; [done|].
  apply elem_of_app. right. by left.
Qed.

Lemma applyThemeClass_dark paletteType classList :
  applyThemeClass paletteType (Some classList) =
  Some (if bool_decide (paletteType = "dark")
        then classList_add "pf-v5-theme-dark" classList
        else classList_remove "pf-v5-theme-dark" classList).
Proof.
  unfold applyThemeClass. case_bool_decide as Hd.
  - by rewrite (proj2 (String.eqb_eq _ _) Hd).
  - by rewrite (proj2 (String.eqb_neq _ _) Hd).
Qed.

(** X12. After the theme block the [html] element has the class
    [pf-v5-theme-dark] exactly when the palette type is [dark]; every
    other class is there exactly if it was there before; a class list
    without repetition stays without repetition; and without an [html]
    element the block does nothing. *)
Theorem theme_class_follows_palette paletteType classList :
  applyThemeClass paletteType None = None
  ∧ ∃ classList',
      applyThemeClass paletteType (Some classList) = Some classList'
      ∧ ("pf-v5-theme-dark" ∈ classList' ↔ paletteType = "dark")
      ∧ (∀ c, c ≠ "pf-v5-theme-dark" → c ∈ classList' ↔ c ∈ classList)
      ∧ (NoDup classList → NoDup classList').
Proof.
  split; [done|]. rewrite applyThemeClass_dark. eexists. split; [done|].
  case_bool_decide as Hd.
  - unfold classList_add. case_bool_decide as Hin.
    + by repeat split.
    + split; [|split].
      * split; [done|]. intros _. apply elem_of_app. right. by left.
      * intros c Hc. rewrite elem_of_app, list_elem_of_singleton. tauto.
      * intros Hnd. apply NoDup_app. split; [done|]. split.
        -- intros x Hx ->%list_elem_of_singleton. done.
        -- apply NoDup_singleton.
  - unfold classList_remove. split; [|split].
    + rewrite list_elem_of_filter. tauto.
    + intros c Hc. rewrite list_elem_of_filter. tauto.
    + apply NoDup_filter.
Qed.

(** X13. The theme block is idempotent: run again on its own result with
    the same palette type, as on every re-render, it changes nothing.
    And it undoes itself: on a class list without [pf-v5-theme-dark],
    a render with the dark theme followed by one with another theme
    gives the class list back as it was. *)
Theorem theme_class_settles paletteType other htmlElement classList :
  applyThemeClass paletteType (applyThemeClass paletteType htmlElement)
  = applyThemeClass paletteType htmlElement
  ∧ (other ≠ "dark" →
     "pf-v5-theme-dark" ∉ classList →
     applyThemeClass other (applyThemeClass "dark" (Some classList))
     = Some classList).
Proof.
  split.
  - destruct htmlElement as [cl|]; [|done].
    rewrite !applyThemeClass_dark. case_bool_decide as Hd; f_equal.
    + apply classList_add_present, classList_add_elem.
    + apply classList_remove_absent. unfold classList_remove.
      rewrite list_elem_of_filter. by intros [Hne _].
  - intros Hother Habs. rewrite !applyThemeClass_dark.
    rewrite (bool_decide_eq_false_2 (other = "dark")) by done.
    rewrite (bool_decide_eq_true_2 ("dark" = "dark")) by done. f_equal.
    unfold classList_add. rewrite bool_decide_eq_false_2 by done.
    unfold classList_remove. rewrite filter_app.
    fold (classList_remove "pf-v5-theme-dark" classList).
    rewrite classList_remove_absent by done.
    rewrite filter_cons_False by (intros Hne; by apply Hne).
    by rewrite filter_nil, app_nil_r.
Qed.

(** * The properties on concrete pages *)

Section Examples.
Local Existing Instance demoEnums.
Local Existing Instance demoUtil.

Implicit Types (st : Page).

Lemma fetchGraph_empty_namespaces_witness :
  activeNamespaces (demoScope [] 60) = []
  ∧ fst (fetchGraph (demoScope [] 60) (mount (demoScope [] 60)))
    = Settled (Returned tt).
Proof.
  split; [reflexivity|].
  exact (proj1 (fetchGraph_empty_namespaces
                  (demoScope [] 60) (mount (demoScope [] 60)) eq_refl)).
Defined.

Lemma view_change_fetches_iff_changed_witness :
  let sc0 := demoScope ["a"; "b"] 60 in
  let es := [Render 1 (demoScope ["b"] 60);
             Render 2 (demoScope ["a"; "b"] 60)] in
  let st := run (mount sc0) es in
  fetchGraphCalls (step st (Render 3 (demoScope ["b"; "a"] 60)))
  = fetchGraphCalls st
  ∧ requests (step st (Render 3 (demoScope ["a"; "b"; "c"] 60)))
    = requests st ++ [graphQueryElements ["a"; "b"; "c"]].
Proof.
  intros sc0 es st. split.
  - pose proof (view_change_fetches_iff_changed sc0 es 3
                  (demoScope ["b"; "a"] 60)) as Hw.
    cbv zeta in Hw. destruct Hw as (_ & _ & _ & _ & Hperm & _).
    apply Hperm; [reflexivity|]. apply perm_swap.
  - pose proof (view_change_fetches_iff_changed sc0 es 3
                  (demoScope ["a"; "b"; "c"] 60)) as Hw.
    cbv zeta in Hw. destruct Hw as (_ & _ & _ & _ & _ & Hmem).
    apply (Hmem "c"); [|discriminate].
    left. split; compute_done.
Defined.

(** C1, as stated, fails when the change leaves no namespace active: the
    only namespace is removed, [fetchGraph] runs and returns on its
    empty path, and no query goes to the telemetry source. *)
Lemma removing_last_namespace_sends_no_query :
  let st := mount (demoScope ["a"] 60) in
  let st' := step st (Render 1 (demoScope [] 60)) in
  prevActiveNs st = ["a"]
  ∧ prevActiveNs st' = []
  ∧ fetchGraphCalls st' = 1%nat
  ∧ requests st = []
  ∧ requests st' = []
  ∧ pending st' = ∅
  ∧ model st' = emptyModel.
Proof. vm_compute. repeat split. Qed.


Lemma failed_fetch_keeps_model_witness :
  let sc := demoScope ["bookinfo"] 60 in
  let st := onePending sc in
  pending st !! 0%nat = Some (sc, graphQueryElements ["bookinfo"])
  ∧ model (step st (Settle 0 (Threw networkError))) = model st
  ∧ alerts (step st (Settle 0 (Threw networkError)))
    = ["Could not fetch services: Network Error"].
Proof.
  intros sc st.
  assert (pending st !! 0%nat = Some (sc, graphQueryElements ["bookinfo"]))
    as Hp by (vm_compute; reflexivity).
  split; [exact Hp|].
  pose proof (failed_fetch_keeps_model st 0 sc _ networkError Hp) as Hw.
  vm_compute in Hw |- *.
  destruct Hw as (_ & _ & Hm & _ & _ & Ha & _). split; assumption.
Defined.

(** C3, as stated, fails on a page whose [kialiState] has no
    [alertUtils]: the request fails and no alert is raised. *)
Lemma failed_fetch_without_alert_sink :
  let sc := quietScope ["bookinfo"] 60 in
  let st := onePending sc in
  let st' := step st (Settle 0 (Threw networkError)) in
  pending st !! 0%nat = Some (sc, graphQueryElements ["bookinfo"])
  ∧ alerts st = []
  ∧ alerts st' = []
  ∧ length (alerts st') ≠ S (length (alerts st)).
Proof. vm_compute. repeat split; discriminate. Qed.

Lemma last_response_to_arrive_wins_witness :
  model (run twoPending [Settle 1 (Returned (demoData ["ratings"]));
                         Settle 0 (Returned (demoData ["reviews"]))])
  = modelOf (["b/reviews"], [])
  ∧ model (run twoPending [Settle 0 (Returned (demoData ["reviews"]));
                           Settle 1 (Returned (demoData ["ratings"]))])
    = modelOf (["c/ratings"], []).
Proof.
  apply (last_response_to_arrive_wins twoPending 0 1
           (demoScope ["b"] 60) (graphQueryElements ["b"])
           (demoScope ["c"] 60) (graphQueryElements ["c"])
           (demoData ["reviews"]) (demoData ["ratings"])
           ["reviews"] ["ratings"]
           (["b/reviews"], []) (["c/ratings"], []));
    first [lia | vm_compute; reflexivity].
Defined.

(** C4, as stated, fails: namespace [b] is selected, then [c] before
    the first response is there; the response for [c] arrives, then the
    one for [b].  The snapshot says [c] and the page shows the graph of
    [b]. *)
Lemma stale_response_overwrites_newer_model :
  let st :=
    run twoPending
        [Settle 1 (Returned (demoData ["ratings"]));
         Settle 0 (Returned (demoData ["reviews"]))] in
  map namespaces (requests twoPending) = ["b"; "c"]
  ∧ prevActiveNs st = ["c"]
  ∧ nodes (model st) = ["b/reviews"]
  ∧ model st ≠ modelOf (["c/ratings"], []).
Proof. vm_compute. repeat split; discriminate. Qed.

Lemma burst_fetches_once_per_render_witness :
  let st := mount (demoScope ["a"] 60) in
  let burst := [(1, demoScope ["a"; "b"] 60); (2, demoScope ["a"; "b"] 300);
                (3, demoScope ["b"] 300)] in
  qualifying (prevDuration st) (prevActiveNs st) burst = true
  ∧ fetchGraphCalls (run st (renders burst)) = 3%nat
  ∧ map namespaces (requests (run st (renders burst)))
    = ["a,b"; "a,b"; "b"].
Proof.
  intros st burst.
  assert (qualifying (prevDuration st) (prevActiveNs st) burst = true)
    as Hq by (vm_compute; reflexivity).
  split; [exact Hq|].
  pose proof (burst_fetches_once_per_render burst st Hq) as Hw.
  destruct Hw as [Hc Hr].
  split; [exact Hc|]. rewrite Hr; [vm_compute; reflexivity|].
  repeat constructor; discriminate.
Defined.

(** C5, as stated, fails: two changes one time unit apart, well within
    ten, send two queries. *)
Lemma burst_within_window_sends_two_queries :
  let st := mount (demoScope ["a"] 60) in
  let burst :=
    [(1, demoScope ["a"; "b"] 60); (2, demoScope ["a"; "b"] 300)] in
  withinWindow 10 burst = true
  ∧ qualifying (prevDuration st) (prevActiveNs st) burst = true
  ∧ requests st = []
  ∧ length (requests (run st (renders burst))) = 2%nat
  ∧ fetchGraphCalls (run st (renders burst)) = 2%nat.
Proof. vm_compute. repeat split. Qed.

Lemma snapshot_replaced_at_trigger_witness :
  let st := mount (demoScope ["a"] 60) in
  let sc := demoScope ["b"] 60 in
  changed sc st = true
  ∧ prevActiveNs (step st (Render 7 sc)) = ["b"]
  ∧ model (step st (Render 7 sc)) = model st.
Proof.
  intros st sc.
  assert (changed sc st = true) as Hc by (vm_compute; reflexivity).
  split; [exact Hc|].
  destruct (snapshot_replaced_at_trigger st 7 sc Hc) as (_ & Hn & Hfly & _).
  split; [exact Hn|].
  refine (proj1 (Hfly _)). discriminate.
Defined.

(** C6, as stated, fails: the graph of namespace [a] is on display, then
    [b] is selected.  Until the response arrives the snapshot says [b]
    and the model is still the graph of [a]. *)
Lemma snapshot_ahead_of_model :
  let st :=
    run (onePending (demoScope ["a"] 60))
        [Settle 0 (Returned (demoData ["reviews"]));
         Render 7 (demoScope ["b"] 60)] in
  prevActiveNs st = ["b"]
  ∧ nodes (model st) = ["a/reviews"]
  ∧ pending st !! 1%nat
    = Some (demoScope ["b"] 60, graphQueryElements ["b"]).
Proof. vm_compute. repeat split. Qed.

Lemma new_model_pushed_unanimated_witness :
  let sc := demoScope ["a"] 60 in
  let st := run (mount sc) [Refresh sc] in
  let st' := step st (Settle 0 (Returned (demoData ["reviews"]))) in
  modelRef st' ≠ modelRef st
  ∧ fromModelCalls (controller st')
    = [(emptyModel, false); (modelOf (["a/reviews"], []), false)]
  ∧ controller (step st (Settle 5 (Returned (demoData ["reviews"]))))
    = controller st.
Proof.
  intros sc st st'.
  pose proof (new_model_pushed_unanimated sc [Refresh sc]
                (Settle 0 (Returned (demoData ["reviews"])))) as Hpush.
  pose proof (new_model_pushed_unanimated sc [Refresh sc]
                (Settle 5 (Returned (demoData ["reviews"])))) as Hkeep.
  vm_compute in Hpush, Hkeep |- *.
  destruct Hpush as (Hp & _). destruct Hkeep as (_ & Hk & _).
  split; [discriminate|]. split.
  - apply Hp. discriminate.
  - apply Hk. reflexivity.
Defined.

End Examples.

Section LifecycleExamples.
Local Existing Instance demoEnums.
Local Existing Instance demoUtil.

Lemma in_flight_accounting_witness :
  let sc := demoScope ["a"] 60 in
  let es := [Render 1 (demoScope ["b"] 60); Render 2 (demoScope ["c"] 60)] in
  pending (run (mount sc) es) !! 1%nat
  = Some (demoScope ["c"] 60, graphQueryElements ["c"])
  ∧ requests (run (mount sc) es) !! 1%nat = Some (graphQueryElements ["c"]).
Proof.
  intros sc es.
  assert (pending (run (mount sc) es) !! 1%nat
          = Some (demoScope ["c"] 60, graphQueryElements ["c"])) as Hp
    by (vm_compute; reflexivity).
  split; [exact Hp|].
  exact (proj1 (proj1 (in_flight_accounting sc es) 1%nat _ _ Hp)).
Defined.

Lemma getNamespaces_store_first_witness :
  getNamespaces string (fun e => [e]) (Some "reviews") (demoStore ["bookinfo"])
  = Returned ["bookinfo"]
  ∧ getNamespaces string (fun e => [e]) (Some "reviews")
      {| Store.namespaces := None; Store.alertUtils := true |}
    = Returned ["reviews"].
Proof.
  split.
  - exact (proj1 (proj2 (getNamespaces_store_first string (fun e => [e])
                           None (demoStore ["bookinfo"])))
             _ (Some "reviews") eq_refl).
  - exact (proj2 (proj2 (getNamespaces_store_first string (fun e => [e]) None
                           {| Store.namespaces := None;
                              Store.alertUtils := true |}))
             "reviews" eq_refl).
Defined.

Lemma store_selection_drives_fetch_witness :
  let st := mount (demoScope ["bookinfo"] 60) in
  ∃ sc,
    renderScope string (fun e => [e]) (Some "reviews") (demoStore []) 60
    = Returned sc
    ∧ model (snd (fetchGraph sc st)) = emptyModel
    ∧ requests (snd (fetchGraph sc st)) = requests st.
Proof.
  intros st.
  destruct (store_selection_drives_fetch string (fun e => [e])
              (Some "reviews") (demoStore []) _ 60 st eq_refl)
    as (sc & Hsc & _ & _ & _ & Hempty & _).
  exists sc. split; [exact Hsc|].
  destruct (Hempty eq_refl) as (_ & Hm & Hr). split; [exact Hm|exact Hr].
Defined.

Lemma theme_class_follows_palette_witness :
  ∃ classList',
    applyThemeClass "light" (Some ["app"; "pf-v5-theme-dark"])
    = Some classList'
    ∧ "app" ∈ classList'
    ∧ NoDup classList'.
Proof.
  destruct (theme_class_follows_palette "light" ["app"; "pf-v5-theme-dark"])
    as (_ & cl & Heq & _ & Hother & Hnd).
  exists cl. split; [exact Heq|]. split.
  - apply Hother; [discriminate|compute_done].
  - apply Hnd. compute_done.
Defined.

Lemma theme_class_settles_witness :
  applyThemeClass "light" (applyThemeClass "dark" (Some ["app"]))
  = Some ["app"].
Proof.
  apply (theme_class_settles "dark" "light" None ["app"]).
  - discriminate.
  - compute_done.
Defined.

End LifecycleExamples.

Section StrictExamples.
Local Existing Instance demoEnums.
Local Existing Instance strictUtil.

Lemma processing_error_keeps_model_witness :
  let sc := demoScope ["a"] 60 in
  let st := run (mount sc) [Refresh sc] in
  let data := Build_GraphDefinition ["reviews"; ""] 60 in
  pending st !! 0%nat = Some (sc, graphQueryElements ["a"])
  ∧ model (step st (Settle 0 (Returned data))) = model st
  ∧ alerts (step st (Settle 0 (Returned data)))
    = ["Could not fetch services: element without a name"].
Proof.
  intros sc st data.
  assert (pending st !! 0%nat = Some (sc, graphQueryElements ["a"])) as Hp
    by (vm_compute; reflexivity).
  split; [exact Hp|].
  destruct (processing_error_keeps_model st 0 sc _ data
              "element without a name" Hp)
    as (Hm & _ & _ & _ & Ha).
  { left. vm_compute. reflexivity. }
  split; [exact Hm|]. etrans; [exact Ha|]. vm_compute. reflexivity.
Defined.

End StrictExamples.

Section ClearingExamples.
Local Existing Instance demoEnums.
Local Existing Instance demoUtil.

Lemma cleared_selection_refilled_by_late_response_witness :
  let sc := demoScope ["a"] 60 in
  let st := run (mount sc) [Refresh sc] in
  let st1 := step st (Render 3 (demoScope [] 60)) in
  model st1 = emptyModel
  ∧ model (step st1 (Settle 0 (Returned (demoData ["reviews"]))))
    = modelOf (["a/reviews"], []).
Proof.
  intros sc st st1.
  destruct (cleared_selection_refilled_by_late_response st 3
              (demoScope [] 60) 0 sc (graphQueryElements ["a"])
              (demoData ["reviews"]) ["reviews"] (["a/reviews"], []))
    as (Hm & _ & _ & _ & Hlate & _);
    try (vm_compute; reflexivity).
  split; [exact Hm|exact Hlate].
Defined.

End ClearingExamples.
